(** * Sentiment demo of [keras-with-openvino-backend.ipynb]

    A shallow embedding of the two functions the notebook defines,
    [get_sentiment] and [display_results], together with the pieces of the
    Python runtime they rely on: exceptions, [len], [max] over a generator,
    dictionary subscription, the [<width] format specification, string
    repetition and [print].  The script that feeds the one into the other
    and the cell that downloads [notebook_utils.py] are embedded as well. *)

From Stdlib Require Import Ascii Reals Lra.
From stdpp Require Import base option list strings gmap.

Local Open Scope string_scope.
Local Open Scope list_scope.
Local Open Scope nat_scope.

(** ** Exceptions and fallible computations *)

(** The exceptions that can reach the notebook's code.  [LibraryError]
    stands for whatever an external framework call raises. *)
Inductive exception : Type :=
| ValueError
| IndexError
| KeyError (key : string)
| LibraryError (what : string).

Inductive result (A : Type) : Type :=
| Ok (a : A)
| Raise (e : exception).
Arguments Ok {A} a.
Arguments Raise {A} e.

#[global] Instance result_ret : MRet result := λ A a, Ok a.
#[global] Instance result_bind : MBind result := λ A B f m,
  match m with
  | Ok a => f a
  | Raise e => Raise e
  end.
#[global] Instance result_fmap : FMap result := λ A B f m,
  match m with
  | Ok a => Ok (f a)
  | Raise e => Raise e
  end.

(** ** Standard output

    The console is the list of the strings the notebook's own [print] calls
    have written, one entry per call, in order.  An entry that contains a
    newline character spans several lines of the terminal but is still one
    entry; writing to the stream is taken to succeed.  A statement runs
    from a console state to a new console state and either a value or the
    exception that stopped it; what was printed before an exception stays
    printed. *)
Definition console : Type := list string.

Record io (A : Type) : Type := Io { run : console → console * result A }.
Arguments Io {A} run.
Arguments run {A} i out.

#[global] Instance io_ret : MRet io := λ A a, Io (λ out, (out, Ok a)).
#[global] Instance io_bind : MBind io := λ A B f m,
  Io (λ out,
    match run m out with
    | (out', Ok a) => run (f a) out'
    | (out', Raise e) => (out', Raise e)
    end).

Definition lift {A : Type} (r : result A) : io A := Io (λ out, (out, r)).

Definition print (line : string) : io unit :=
  Io (λ out, (out ++ [line], Ok tt)).

(** [for x in xs: body x] *)
Fixpoint for_each {A : Type} (xs : list A) (body : A → io unit) : io unit :=
  match xs with
  | [] => mret tt
  | x :: xs' => body x ;; for_each xs' body
  end.

(** ** Strings, dictionaries and built-ins *)

(** A record of the results table is a Python [dict] from field names to
    strings.  One [ascii] stands for one character of a Python [str]. *)
Abbreviation dict := (gmap string string).

(** [d[key]] *)
Definition getitem (d : dict) (key : string) : result string :=
  match d !! key with
  | Some v => Ok v
  | None => Raise (KeyError key)
  end.

(** [len(s)] *)
Definition len (s : string) : nat := String.length s.

(** [max(iterable)] on integers *)
Definition py_max (xs : list nat) : result nat :=
  match xs with
  | [] => Raise ValueError
  | x :: xs' => Ok (foldl Nat.max x xs')
  end.

(** [s * n] *)
Fixpoint str_mul (s : string) (n : nat) : string :=
  match n with
  | O => ""
  | S n' => s +:+ str_mul s n'
  end.

(** [f"{s:<{width}}"]: left-justify [s] in a field of [width] characters,
    filling with spaces. *)
Definition format_left (s : string) (width : nat) : string :=
  s +:+ str_mul " " (width - len s).

(** ** display_results *)

(** [max(len(result[key]) for result in results)]: a missing key stops the
    generator with [KeyError]; an empty generator makes [max] raise. *)
Definition max_len (key : string) (results : list dict) : result nat :=
  lens ← mapM (λ result : dict, len <$> getitem result key) results;
  py_max lens.

(** [f"{a:<{w1}}  {b:<{w2}}"], the shape of the header and of every row *)
Definition two_columns (a b : string) (w1 w2 : nat) : string :=
  format_left a w1 +:+ "  " +:+ format_left b w2.

Definition display_results (results : list dict) : io unit :=
  max_sentence_length ← lift (max_len "Sentence" results);
  max_sentiment_length ← lift (max_len "Sentiment" results);
  print (two_columns "Sentence" "Sentiment"
           max_sentence_length max_sentiment_length) ;;
  print (str_mul "-" (max_sentence_length + max_sentiment_length + 4)) ;;
  for_each results (λ result,
    sentence ← lift (getitem result "Sentence");
    sentiment ← lift (getitem result "Sentiment");
    print (two_columns sentence sentiment
             max_sentence_length max_sentiment_length)).

(** ** get_sentiment *)

(** [a[i]] on a one-dimensional array *)
Definition index {A : Type} (a : list A) (i : nat) : result A :=
  match a !! i with
  | Some x => Ok x
  | None => Raise IndexError
  end.

Section GetSentiment.
(** The element type of the arrays, and the three library calls of the
    function: [bert.predict], [tf.nn.softmax(_, axis=1).numpy()] and
    [np.argmax(_, axis=1)].  A two-dimensional array is the list of its
    rows.  Each call returns an array or raises; what a call may print is
    left out. *)
Context {elt : Type}.
Variable predict : list string → result (list (list elt)).
Variable softmax : list (list elt) → result (list (list elt)).
Variable argmax : list (list elt) → result (list nat).

Definition get_sentiment (text : string) : result string :=
  predictions ← predict [text];
  probabilities ← softmax predictions;
  sentiment ← (indices ← argmax probabilities; index indices 0);
  let sentiment_label :=
    if bool_decide (sentiment = 1) then "positive" else "negative" in
  mret sentiment_label.

(** A library call of [get_sentiment] raises [e] on [text]. *)
Inductive library_raises (text : string) (e : exception) : Prop :=
| predict_raises :
    predict [text] = Raise e → library_raises text e
| softmax_raises predictions :
    predict [text] = Ok predictions →
    softmax predictions = Raise e → library_raises text e
| argmax_raises predictions probabilities :
    predict [text] = Ok predictions →
    softmax predictions = Ok probabilities →
    argmax probabilities = Raise e → library_raises text e.
End GetSentiment.

(** ** The post-processing calls in exact arithmetic *)

Section Argmax.
(** [np.argmax] over any element type with a strict order test: the index
    of the first occurrence of the maximum. *)
Context {T : Type} (ltb : T → T → bool).

Fixpoint argmax_from (best : T) (best_i i : nat) (xs : list T) : nat :=
  match xs with
  | [] => best_i
  | x :: xs' =>
      if ltb best x then argmax_from x i (S i) xs'
      else argmax_from best best_i (S i) xs'
  end.

Definition np_argmax (xs : list T) : result nat :=
  match xs with
  | [] => Raise ValueError
  | x :: xs' => Ok (argmax_from x 0 1 xs')
  end.

(** [np.argmax(a, axis=1)] *)
Definition np_argmax_axis1 (a : list (list T)) : result (list nat) :=
  mapM np_argmax a.
End Argmax.

Definition Rltb (a b : R) : bool := if Rlt_dec a b then true else false.

Definition Rsum (xs : list R) : R := foldr Rplus 0%R xs.

(** Softmax of one row: [exp(x_i) / sum_j exp(x_j)]. *)
Definition softmax_row (v : list R) : list R :=
  let total := Rsum (exp <$> v) in
  (λ x, (exp x / total)%R) <$> v.

(** [tf.nn.softmax(a, axis=1)] *)
Definition tf_nn_softmax_axis1 (a : list (list R)) : result (list (list R)) :=
  Ok (softmax_row <$> a).

(** The post-processing without the softmax step. *)
Definition no_softmax (a : list (list R)) : result (list (list R)) := Ok a.

(** ** Vocabulary of the specification *)

(** Both fields of a record are present. *)
Definition has_fields (r : dict) : Prop :=
  is_Some (r !! "Sentence") ∧ is_Some (r !! "Sentiment").

(** [w] is the maximum string length of field [key] among [results]. *)
Definition is_max_length (key : string) (results : list dict) (w : nat) : Prop :=
  (∃ (r : dict) s, r ∈ results ∧ r !! key = Some s ∧ len s = w) ∧
  (∀ (r : dict) s, r ∈ results → r !! key = Some s → len s ≤ w).

(** Every character of [s] is [c]. *)
Fixpoint all_chars (c : ascii) (s : string) : Prop :=
  match s with
  | EmptyString => True
  | String c' s' => c' = c ∧ all_chars c s'
  end.

(** [line] is the row printed for record [r] with column widths [w1], [w2]. *)
Definition row_of (w1 w2 : nat) (r : dict) (line : string) : Prop :=
  ∃ s t, r !! "Sentence" = Some s ∧ r !! "Sentiment" = Some t ∧
         line = two_columns s t w1 w2.

(** Whatever the console holds before, running [m] appends exactly [lines]
    to it and ends in [r]. *)
Definition emits {A : Type} (m : io A) (lines : list string) (r : result A) : Prop :=
  ∀ out, run m out = (out ++ lines, r).

(** [s] followed by spaces only: [s] left-justified, nothing cut off. *)
Definition padded (s cell : string) : Prop :=
  ∃ pad, cell = s +:+ pad ∧ all_chars " "%char pad.

(** The record [{"Sentence": "x", "Sentiment": "positive"}]. *)
Definition x_positive : dict :=
  {[ "Sentence" := "x"; "Sentiment" := "positive" ]}.

(** Two rows of the table the notebook builds. *)
Definition demo_results : list dict :=
  [ {[ "Sentence" := "the plot was predictable and boring.";
       "Sentiment" := "negative" ]};
    {[ "Sentence" := "an excellent movie that i would highly recommend.";
       "Sentiment" := "positive" ]} ].

(** ** The script around the two functions *)

(** [{"Sentence": sentence, "Sentiment": sentiment}] *)
Definition new_result (sentence sentiment : string) : dict :=
  <["Sentiment" := sentiment]> (<["Sentence" := sentence]> ∅).

(** The four sentences the notebook classifies. *)
Definition sentences : list string :=
  [ "the movie was a complete waste of time.";
    "the plot was predictable and boring.";
    "i absolutely loved this movie, it was fantastic!";
    "an excellent movie that i would highly recommend." ].

Section Script.
Context {elt : Type}.
Variable predict : list string → result (list (list elt)).
Variable softmax : list (list elt) → result (list (list elt)).
Variable argmax : list (list elt) → result (list nat).

(** The loop [for sentence in todo: ... results.append(...)], started with
    the list [results] built so far. *)
Fixpoint append_results (todo : list string) (results : list dict) :
    result (list dict) :=
  match todo with
  | [] => Ok results
  | sentence :: todo' =>
      sentiment ← get_sentiment predict softmax argmax sentence;
      append_results todo'
        (results ++ [new_result sentence sentiment])
  end.

(** [results = []], the loop over [todo], then [display_results(results)].
    The console holds what the notebook's own [print] calls write. *)
Definition script (todo : list string) : io unit :=
  results ← lift (append_results todo []);
  display_results results.
End Script.

(** Two lists of records agree on the two fields the table shows. *)
Definition same_fields (r r' : dict) : Prop :=
  r !! "Sentence" = r' !! "Sentence" ∧ r !! "Sentiment" = r' !! "Sentiment".

(** The row of record [r] for column widths [w1] and [w2], as a function;
    a field that is absent reads as the empty string. *)
Definition row_text (w1 w2 : nat) (r : dict) : string :=
  two_columns (default "" (r !! "Sentence")) (default "" (r !! "Sentiment"))
    w1 w2.

(** Two models to run the script on: one whose logits favour class 1 on
    every text, and one that in addition fails on the second sentence. *)
Definition always_positive (texts : list string) : result (list (list R)) :=
  Ok [[0; 1]%R].

Definition fails_on_second (texts : list string) : result (list (list R)) :=
  if decide (texts = ["the plot was predictable and boring."])
  then Raise (LibraryError "predict")
  else Ok [[0; 1]%R].

(** ** Fetching [notebook_utils.py]

    The first code cell downloads a helper module unless a file of that
    name is already there.  The working directory is a finite map from
    paths to contents, with a flag telling whether files can be created in
    it; the URLs requested are logged; [encodable] tells which texts the
    encoding of the locale can write. *)
Record world : Type := World {
  files : gmap string string;
  writable : bool;
  requested : list string;
  encodable : string → bool
}.

Definition notebook_utils_py : string := "notebook_utils.py".

Definition notebook_utils_url : string :=
  "https://raw.githubusercontent.com/openvinotoolkit/openvino_notebooks/latest/utils/notebook_utils.py".

(** [open(path, "w")]: the file is created empty, or emptied when it is
    there, or [open] raises when the directory cannot be written. *)
Definition open_w (path : string) (w : world) : world * result unit :=
  if writable w
  then (World (<[path := ""]> (files w)) (writable w) (requested w)
          (encodable w), Ok tt)
  else (w, Raise (LibraryError "open")).

(** [.write(text)] on the file just opened: the text becomes its content,
    or the write raises when the text cannot be encoded and the file stays
    as [open] left it. *)
Definition write (path text : string) (w : world) : world * result unit :=
  if encodable w text
  then (World (<[path := text]> (files w)) (writable w) (requested w)
          (encodable w), Ok tt)
  else (w, Raise (LibraryError "write")).

(** [open(path, "w").write(text)] *)
Definition open_w_write (path text : string) (w : world) : world * result unit :=
  match open_w path w with
  | (w1, Ok _) => write path text w1
  | (w1, Raise e) => (w1, Raise e)
  end.

(** The texts an ASCII locale can encode, and the locale that encodes
    every text. *)
Fixpoint ascii_only (s : string) : bool :=
  match s with
  | EmptyString => true
  | String c s' => bool_decide (nat_of_ascii c < 128) && ascii_only s'
  end.

Definition any_text (s : string) : bool := true.

Section FetchUtils.
(** [requests.get(url=...)] followed by [.text]: the body of the response,
    whatever its status, or the exception the request raised. *)
Variable requests_get : string → result string.

Definition fetch_notebook_utils (w : world) : world * result unit :=
  if bool_decide (is_Some (files w !! notebook_utils_py)) then (w, Ok tt)
  else
    let w' := World (files w) (writable w)
                (requested w ++ [notebook_utils_url]) (encodable w) in
    match requests_get notebook_utils_url with
    | Ok text => open_w_write notebook_utils_py text w'
    | Raise e => (w', Raise e)
    end.
End FetchUtils.

(** * Properties *)


(** ** Strings *)

Lemma len_app (s t : string) : len (s +:+ t) = len s + len t.
Proof.
  unfold len. induction s as [|c s IH]; [reflexivity|].
  change (String c s +:+ t) with (String c (s +:+ t)).
  cbn [String.length]. by rewrite IH.
Qed.

Lemma len_str_mul (s : string) (n : nat) : len (str_mul s n) = n * len s.
Proof.
  induction n as [|n IH]; [reflexivity|].
  cbn [str_mul]. rewrite len_app, IH. lia.
Qed.

Lemma all_chars_str_mul (c : ascii) (n : nat) :
  all_chars c (str_mul (String c "") n).
Proof. induction n as [|n IH]; [exact I|]. split; [reflexivity|exact IH]. Qed.

Lemma len_format_left (s : string) (width : nat) :
  len (format_left s width) = Nat.max (len s) width.
Proof.
  unfold format_left. rewrite len_app, len_str_mul. cbn [len String.length]. lia.
Qed.

Lemma len_format_left_fits (s : string) (width : nat) :
  len s ≤ width → len (format_left s width) = width.
Proof. rewrite len_format_left. lia. Qed.

(** ** The built-in [max] *)

Lemma foldl_max_spec (xs : list nat) (x : nat) :
  foldl Nat.max x xs ∈ x :: xs ∧ ∀ y, y ∈ x :: xs → y ≤ foldl Nat.max x xs.
Proof.
  revert x. induction xs as [|z xs IH]; intros x; cbn [foldl].
  - split; [left|]. intros y Hy. apply list_elem_of_singleton in Hy. lia.
  - destruct (IH (Nat.max x z)) as [Hin Hle]. split.
    + apply elem_of_cons in Hin as [Heq|Hin].
      * rewrite Heq. destruct (Nat.max_spec x z) as [[_ ->]|[_ ->]].
        -- right; left.
        -- left.
      * right; right; exact Hin.
    + intros y Hy.
      assert (Nat.max x z ≤ foldl Nat.max (Nat.max x z) xs) as Hm
        by (apply Hle; left).
      apply elem_of_cons in Hy as [->|Hy]; [lia|].
      apply elem_of_cons in Hy as [->|Hy]; [lia|].
      apply Hle. right; exact Hy.
Qed.

Lemma py_max_ok (xs : list nat) :
  xs ≠ [] → ∃ m, py_max xs = Ok m ∧ m ∈ xs ∧ ∀ y, y ∈ xs → y ≤ m.
Proof.
  destruct xs as [|x xs]; [done|]. intros _.
  exists (foldl Nat.max x xs). split; [reflexivity|]. apply foldl_max_spec.
Qed.

(** ** Column widths *)

Lemma getitem_Some (d : dict) (key v : string) :
  d !! key = Some v → getitem d key = Ok v.
Proof. unfold getitem. by intros ->. Qed.

Lemma field_lengths_ok (key : string) (results : list dict) :
  Forall (λ r : dict, is_Some (r !! key)) results →
  ∃ lens,
    mapM (λ result : dict, len <$> getitem result key) results = Ok lens ∧
    Forall2 (λ (r : dict) n, ∃ s, r !! key = Some s ∧ len s = n) results lens.
Proof.
  induction 1 as [|r results [s Hs] _ (lens & Hlens & Hall)].
  - exists []. split; [reflexivity|constructor].
  - exists (len s :: lens). split.
    + cbn [mapM]. rewrite (getitem_Some _ _ _ Hs), Hlens. reflexivity.
    + constructor; [eauto|exact Hall].
Qed.

Lemma max_len_ok (key : string) (results : list dict) :
  results ≠ [] →
  Forall (λ r : dict, is_Some (r !! key)) results →
  ∃ w, max_len key results = Ok w ∧ is_max_length key results w.
Proof.
  intros Hne Hall.
  destruct (field_lengths_ok key results Hall) as (lens & Hlens & Hrel).
  destruct (py_max_ok lens) as (w & Hw & Hin & Hle).
  { intros ->. apply Forall2_nil_inv_r in Hrel. done. }
  exists w. split.
  - unfold max_len. rewrite Hlens. exact Hw.
  - split.
    + apply list_elem_of_lookup in Hin as [i Hi].
      destruct (Forall2_lookup_r _ _ _ _ _ Hrel Hi) as (r & Hr & s & Hs & Hlen).
      exists r, s. split; [|done]. apply list_elem_of_lookup. eauto.
    + intros r s Hr Hs. apply list_elem_of_lookup in Hr as [i Hi].
      destruct (Forall2_lookup_l _ _ _ _ _ Hrel Hi) as (n & Hn & s' & Hs' & Hlen).
      rewrite Hs in Hs'. injection Hs' as <-. rewrite Hlen.
      apply Hle. apply list_elem_of_lookup. eauto.
Qed.

Lemma max_len_empty (key : string) : max_len key [] = Raise ValueError.
Proof. reflexivity. Qed.

(** ** Running statements *)

Lemma emits_ret {A : Type} (a : A) : emits (mret a) [] (Ok a).
Proof. intros out. cbn. by rewrite app_nil_r. Qed.

Lemma emits_lift {A : Type} (r : result A) : emits (lift r) [] r.
Proof. intros out. cbn. by rewrite app_nil_r. Qed.

Lemma emits_print (line : string) : emits (print line) [line] (Ok tt).
Proof. intros out. reflexivity. Qed.

Lemma run_bind {A B : Type} (m : io A) (f : A → io B) (out : console) :
  run (m ≫= f) out =
  match run m out with
  | (out', Ok a) => run (f a) out'
  | (out', Raise e) => (out', Raise e)
  end.
Proof. reflexivity. Qed.

Lemma emits_bind {A B : Type} (m : io A) (f : A → io B) l1 a l2 r :
  emits m l1 (Ok a) → emits (f a) l2 r → emits (m ≫= f) (l1 ++ l2) r.
Proof.
  intros Hm Hf out. rewrite run_bind, Hm, Hf. by rewrite app_assoc.
Qed.

Lemma emits_bind_raise {A B : Type} (m : io A) (f : A → io B) l e :
  emits m l (Raise e) → emits (m ≫= f) l (Raise e).
Proof. intros Hm out. by rewrite run_bind, Hm. Qed.

Lemma for_each_emits {A : Type} (xs : list A) (body : A → io unit) :
  (∀ x, ∃ lines r, emits (body x) lines r) →
  ∃ lines r, emits (for_each xs body) lines r.
Proof.
  intros Hbody. induction xs as [|x xs (lines & r & IH)].
  - exists [], (Ok tt). apply emits_ret.
  - destruct (Hbody x) as (l1 & [[]|e] & Hx).
    + exists (l1 ++ lines), r. cbn [for_each]. by eapply emits_bind.
    + exists l1, (Raise e). cbn [for_each]. by apply emits_bind_raise.
Qed.

(** ** The table *)

Lemma emits_rows (w1 w2 : nat) (results : list dict) :
  Forall has_fields results →
  ∃ rows,
    Forall2 (row_of w1 w2) results rows ∧
    emits (for_each results (λ result,
             sentence ← lift (getitem result "Sentence");
             sentiment ← lift (getitem result "Sentiment");
             print (two_columns sentence sentiment w1 w2))) rows (Ok tt).
Proof.
  induction 1 as [|r results [[s Hs] [t Ht]] _ (rows & Hrows & IH)].
  - exists []. split; [constructor|apply emits_ret].
  - exists (two_columns s t w1 w2 :: rows). split.
    + constructor; [by exists s, t|exact Hrows].
    + cbn [for_each].
      rewrite (getitem_Some _ _ _ Hs), (getitem_Some _ _ _ Ht).
      apply (emits_bind _ _ [_] tt); [|exact IH].
      apply (emits_bind _ _ [] s); [apply emits_lift|].
      apply (emits_bind _ _ [] t); [apply emits_lift|apply emits_print].
Qed.

Lemma display_results_run (results : list dict) :
  results ≠ [] → Forall has_fields results →
  ∃ w1 w2 rows,
    is_max_length "Sentence" results w1 ∧
    is_max_length "Sentiment" results w2 ∧
    Forall2 (row_of w1 w2) results rows ∧
    emits (display_results results)
      (two_columns "Sentence" "Sentiment" w1 w2
       :: str_mul "-" (w1 + w2 + 4) :: rows) (Ok tt).
Proof.
  intros Hne Hall.
  destruct (max_len_ok "Sentence" results Hne) as (w1 & Hw1 & Hmax1).
  { eapply Forall_impl; [exact Hall|]. by intros r [? _]. }
  destruct (max_len_ok "Sentiment" results Hne) as (w2 & Hw2 & Hmax2).
  { eapply Forall_impl; [exact Hall|]. by intros r [_ ?]. }
  destruct (emits_rows w1 w2 results Hall) as (rows & Hrows & Hemits).
  exists w1, w2, rows.
  split; [exact Hmax1|]. split; [exact Hmax2|]. split; [exact Hrows|].
  unfold display_results. rewrite Hw1, Hw2.
  apply (emits_bind _ _ [] w1); [apply emits_lift|].
  apply (emits_bind _ _ [] w2); [apply emits_lift|].
  apply (emits_bind _ _ [_] tt); [apply emits_print|].
  apply (emits_bind _ _ [_] tt); [apply emits_print|].
  exact Hemits.
Qed.

Lemma display_results_emits (results : list dict) :
  ∃ lines r, emits (display_results results) lines r.
Proof.
  unfold display_results.
  destruct (max_len "Sentence" results) as [w1|e].
  2: { exists [], (Raise e). apply emits_bind_raise, emits_lift. }
  destruct (max_len "Sentiment" results) as [w2|e].
  2: { exists [], (Raise e).
       apply (emits_bind _ _ [] w1 []); [apply emits_lift|].
       apply emits_bind_raise, emits_lift. }
  pose (body := λ result : dict,
    sentence ← lift (getitem result "Sentence");
    sentiment ← lift (getitem result "Sentiment");
    print (two_columns sentence sentiment w1 w2)).
  assert (∀ result, ∃ lines r, emits (body result) lines r) as Hbody.
  { intros result. unfold body.
    destruct (getitem result "Sentence") as [s|e].
    2: { exists [], (Raise e). apply emits_bind_raise, emits_lift. }
    destruct (getitem result "Sentiment") as [t|e].
    2: { exists [], (Raise e).
         apply (emits_bind _ _ [] s []); [apply emits_lift|].
         apply emits_bind_raise, emits_lift. }
    exists [two_columns s t w1 w2], (Ok tt).
    apply (emits_bind _ _ [] s); [apply emits_lift|].
    apply (emits_bind _ _ [] t); [apply emits_lift|apply emits_print]. }
  destruct (for_each_emits results body Hbody) as (rows & r & Hrows).
  exists (two_columns "Sentence" "Sentiment" w1 w2
          :: str_mul "-" (w1 + w2 + 4) :: rows), r.
  apply (emits_bind _ _ [] w1); [apply emits_lift|].
  apply (emits_bind _ _ [] w2); [apply emits_lift|].
  apply (emits_bind _ _ [_] tt); [apply emits_print|].
  apply (emits_bind _ _ [_] tt); [apply emits_print|].
  exact Hrows.
Qed.

Lemma emits_of_run {A : Type} (m : io A) (lines : list string) (r : result A) :
  (∃ lines' r', emits m lines' r') → run m [] = (lines, r) → emits m lines r.
Proof.
  intros (lines' & r' & Hm) Hrun. rewrite (Hm []) in Hrun. cbn in Hrun.
  injection Hrun as <- <-. exact Hm.
Qed.

Lemma format_left_padded (s : string) (width : nat) :
  padded s (format_left s width).
Proof. eexists. split; [reflexivity|]. apply all_chars_str_mul. Qed.

Lemma x_positive_fields : Forall has_fields [x_positive].
Proof. repeat constructor; by eexists. Qed.

Example display_results_x_positive :
  run (display_results [x_positive]) [] =
  (["Sentence  Sentiment"; "-------------"; "x  positive"], Ok tt).
Proof. vm_compute. reflexivity. Qed.

Example display_results_demo :
  run (display_results demo_results) [] =
  ([ "Sentence                                           Sentiment";
     "-------------------------------------------------------------";
     "the plot was predictable and boring.               negative";
     "an excellent movie that i would highly recommend.  positive" ],
   Ok tt).
Proof. vm_compute. reflexivity. Qed.

(** ** Claims about [display_results] *)

(** C3: for every non-empty list of records, the separator line printed by
    [display_results] consists of dashes only, and its length is the maximum
    sentence length plus the maximum sentiment-label length plus 4. *)
Theorem separator_line_length (results : list dict) :
  results ≠ [] → Forall has_fields results →
  ∃ w1 w2 header separator rows,
    is_max_length "Sentence" results w1 ∧
    is_max_length "Sentiment" results w2 ∧
    emits (display_results results) (header :: separator :: rows) (Ok tt) ∧
    all_chars "-"%char separator ∧
    len separator = w1 + w2 + 4.
Proof.
  intros Hne Hall.
  destruct (display_results_run results Hne Hall)
    as (w1 & w2 & rows & Hw1 & Hw2 & _ & Hrun).
  exists w1, w2. eexists _, _, rows.
  split; [exact Hw1|]. split; [exact Hw2|]. split; [exact Hrun|]. split.
  - apply (all_chars_str_mul "-"%char).
  - rewrite len_str_mul. cbn [len String.length]. lia.
Qed.

Lemma separator_line_length_witness :
  ∃ w1 w2 header separator rows,
    is_max_length "Sentence" demo_results w1 ∧
    is_max_length "Sentiment" demo_results w2 ∧
    emits (display_results demo_results) (header :: separator :: rows) (Ok tt) ∧
    all_chars "-"%char separator ∧
    len separator = w1 + w2 + 4.
Proof.
  apply (separator_line_length demo_results).
  - discriminate.
  - repeat constructor; eexists; vm_compute; reflexivity.
Defined.

(** C2, as stated, fails: for the single record [x_positive] the maxima are
    1 and 8, yet the printed header is ["Sentence  Sentiment"], which cannot
    be split into a column of 1 and a column of 8 characters around the
    two-space gap. *)
Lemma header_width_counterexample :
  ¬ (∀ results : list dict,
       results ≠ [] → Forall has_fields results →
       ∀ w1 w2 header rest,
         is_max_length "Sentence" results w1 →
         is_max_length "Sentiment" results w2 →
         emits (display_results results) (header :: rest) (Ok tt) →
         ∃ col1 col2,
           header = col1 +:+ "  " +:+ col2 ∧ len col1 = w1 ∧ len col2 = w2).
Proof.
  intros Hclaim.
  destruct (Hclaim [x_positive] ltac:(discriminate) x_positive_fields
              1 8 "Sentence  Sentiment" ["-------------"; "x  positive"])
    as (col1 & col2 & Hheader & Hlen1 & Hlen2).
  - split.
    + exists x_positive, "x". split; [left|]. by split.
    + intros r s Hr Hs. apply list_elem_of_singleton in Hr as ->.
      vm_compute in Hs. injection Hs as <-. reflexivity.
  - split.
    + exists x_positive, "positive". split; [left|]. by split.
    + intros r s Hr Hs. apply list_elem_of_singleton in Hr as ->.
      vm_compute in Hs. injection Hs as <-. reflexivity.
  - apply emits_of_run; [apply display_results_emits|].
    vm_compute. reflexivity.
  - apply (f_equal len) in Hheader. rewrite !len_app, Hlen1, Hlen2 in Hheader.
    vm_compute in Hheader. discriminate.
Qed.

(** C2 (amended): for every non-empty list of records with both fields, each
    header column printed by [display_results] is as wide as the larger of
    its label's length (8 for Sentence, 9 for Sentiment) and the maximum
    string length of the corresponding field; it is exactly that maximum
    whenever the maximum is at least the label's length. *)
Theorem header_column_widths (results : list dict) :
  results ≠ [] → Forall has_fields results →
  ∃ w1 w2 col1 col2 rest,
    is_max_length "Sentence" results w1 ∧
    is_max_length "Sentiment" results w2 ∧
    emits (display_results results) ((col1 +:+ "  " +:+ col2) :: rest) (Ok tt) ∧
    padded "Sentence" col1 ∧ padded "Sentiment" col2 ∧
    len col1 = Nat.max 8 w1 ∧ len col2 = Nat.max 9 w2 ∧
    (8 ≤ w1 → len col1 = w1) ∧ (9 ≤ w2 → len col2 = w2).
Proof.
  intros Hne Hall.
  destruct (display_results_run results Hne Hall)
    as (w1 & w2 & rows & Hw1 & Hw2 & _ & Hrun).
  exists w1, w2, (format_left "Sentence" w1), (format_left "Sentiment" w2).
  eexists. split; [exact Hw1|]. split; [exact Hw2|]. split; [exact Hrun|].
  split; [apply format_left_padded|]. split; [apply format_left_padded|].
  rewrite !len_format_left. cbn [len String.length]. lia.
Qed.

Lemma header_column_widths_witness :
  ∃ w1 w2 col1 col2 rest,
    is_max_length "Sentence" demo_results w1 ∧
    is_max_length "Sentiment" demo_results w2 ∧
    emits (display_results demo_results)
      ((col1 +:+ "  " +:+ col2) :: rest) (Ok tt) ∧
    padded "Sentence" col1 ∧ padded "Sentiment" col2 ∧
    len col1 = Nat.max 8 w1 ∧ len col2 = Nat.max 9 w2 ∧
    (8 ≤ w1 → len col1 = w1) ∧ (9 ≤ w2 → len col2 = w2).
Proof.
  apply (header_column_widths demo_results).
  - discriminate.
  - repeat constructor; eexists; vm_compute; reflexivity.
Defined.

(** C4, as stated, fails: the row printed for [x_positive] is not
    ["x positive"]; the two fields are separated by two spaces. *)
Lemma x_positive_row_counterexample :
  ∃ header separator row,
    run (display_results [x_positive]) [] = ([header; separator; row], Ok tt) ∧
    row ≠ "x positive".
Proof.
  exists "Sentence  Sentiment", "-------------", "x  positive".
  split; [vm_compute; reflexivity|discriminate].
Qed.

(** C4 (amended): for the single record with Sentence ["x"] and Sentiment
    ["positive"], [display_results] computes the column widths 1 and 8 and
    prints the data row ["x  positive"]: both fields already fill their
    columns, so no padding is added, and two spaces separate them.  The
    header is ["Sentence  Sentiment"] and the rule has 13 dashes. *)
Theorem x_positive_table :
  max_len "Sentence" [x_positive] = Ok 1 ∧
  max_len "Sentiment" [x_positive] = Ok 8 ∧
  emits (display_results [x_positive])
    ["Sentence  Sentiment"; "-------------"; "x  positive"] (Ok tt) ∧
  "x  positive" = two_columns "x" "positive" 1 8 ∧
  format_left "x" 1 = "x" ∧ format_left "positive" 8 = "positive".
Proof.
  split; [vm_compute; reflexivity|]. split; [vm_compute; reflexivity|].
  split; [|by vm_compute].
  apply emits_of_run; [apply display_results_emits|].
  vm_compute. reflexivity.
Qed.

(** C5: for every non-empty list of records, each data row printed by
    [display_results] has its Sentence and its Sentiment left-justified and
    padded with spaces to exactly the computed column width, the maximum
    field length over all records. *)
Theorem rows_padded_to_width (results : list dict) :
  results ≠ [] → Forall has_fields results →
  ∃ w1 w2 header separator rows,
    is_max_length "Sentence" results w1 ∧
    is_max_length "Sentiment" results w2 ∧
    emits (display_results results) (header :: separator :: rows) (Ok tt) ∧
    Forall2 (λ (r : dict) row,
      ∃ s t cell1 cell2,
        r !! "Sentence" = Some s ∧ r !! "Sentiment" = Some t ∧
        row = cell1 +:+ "  " +:+ cell2 ∧
        padded s cell1 ∧ padded t cell2 ∧
        len cell1 = w1 ∧ len cell2 = w2) results rows.
Proof.
  intros Hne Hall.
  destruct (display_results_run results Hne Hall)
    as (w1 & w2 & rows & Hw1 & Hw2 & Hrows & Hrun).
  exists w1, w2. eexists _, _, rows.
  split; [exact Hw1|]. split; [exact Hw2|]. split; [exact Hrun|].
  apply Forall2_same_length_lookup. split; [by eapply Forall2_length|].
  intros i r row Hr Hrow.
  destruct (Forall2_lookup_lr _ _ _ _ _ _ Hrows Hr Hrow)
    as (s & t & Hs & Ht & ->).
  exists s, t, (format_left s w1), (format_left t w2).
  split; [exact Hs|]. split; [exact Ht|]. split; [reflexivity|].
  split; [apply format_left_padded|]. split; [apply format_left_padded|].
  apply list_elem_of_lookup_2 in Hr.
  split; apply len_format_left_fits.
  - by apply (proj2 Hw1 r).
  - by apply (proj2 Hw2 r).
Qed.

Lemma rows_padded_to_width_witness :
  ∃ w1 w2 header separator rows,
    is_max_length "Sentence" demo_results w1 ∧
    is_max_length "Sentiment" demo_results w2 ∧
    emits (display_results demo_results)
      (header :: separator :: rows) (Ok tt) ∧
    Forall2 (λ (r : dict) row,
      ∃ s t cell1 cell2,
        r !! "Sentence" = Some s ∧ r !! "Sentiment" = Some t ∧
        row = cell1 +:+ "  " +:+ cell2 ∧
        padded s cell1 ∧ padded t cell2 ∧
        len cell1 = w1 ∧ len cell2 = w2) demo_results rows.
Proof.
  apply (rows_padded_to_width demo_results).
  - discriminate.
  - repeat constructor; eexists; vm_compute; reflexivity.
Defined.

(** The table is printed to the end only for a non-empty list. *)
Lemma display_results_ok_nonempty (results : list dict) (lines : list string) :
  emits (display_results results) lines (Ok tt) → results ≠ [].
Proof. intros Hrun ->. specialize (Hrun []). discriminate. Qed.

(** C9: on the empty list [display_results] raises the error of [max] over an
    empty sequence, and nothing has been printed at that point: the console
    is left as it was. *)
Theorem display_results_empty (out : console) :
  run (display_results []) out = (out, Raise ValueError).
Proof. reflexivity. Qed.

(** C10: [display_results] never shortens a string.  Every printed row is the
    record's full Sentence followed by spaces only, the two-space gap, and
    the full Sentiment followed by spaces only; the header holds the full
    labels in the same way, also when a label is longer than the computed
    column width. *)
Theorem no_truncation (results : list dict) :
  results ≠ [] → Forall has_fields results →
  ∃ header separator rows,
    emits (display_results results) (header :: separator :: rows) (Ok tt) ∧
    (∃ cell1 cell2,
       header = cell1 +:+ "  " +:+ cell2 ∧
       padded "Sentence" cell1 ∧ padded "Sentiment" cell2) ∧
    Forall2 (λ (r : dict) row,
      ∃ s t cell1 cell2,
        r !! "Sentence" = Some s ∧ r !! "Sentiment" = Some t ∧
        row = cell1 +:+ "  " +:+ cell2 ∧
        padded s cell1 ∧ padded t cell2) results rows.
Proof.
  intros Hne Hall.
  destruct (display_results_run results Hne Hall)
    as (w1 & w2 & rows & _ & _ & Hrows & Hrun).
  eexists _, _, rows. split; [exact Hrun|]. split.
  - exists (format_left "Sentence" w1), (format_left "Sentiment" w2).
    split; [reflexivity|]. split; apply format_left_padded.
  - eapply Forall2_impl; [exact Hrows|].
    intros r row (s & t & Hs & Ht & ->).
    exists s, t, (format_left s w1), (format_left t w2).
    split; [exact Hs|]. split; [exact Ht|]. split; [reflexivity|].
    split; apply format_left_padded.
Qed.

Lemma no_truncation_witness :
  ∃ header separator rows,
    emits (display_results [x_positive])
      (header :: separator :: rows) (Ok tt) ∧
    (∃ cell1 cell2,
       header = cell1 +:+ "  " +:+ cell2 ∧
       padded "Sentence" cell1 ∧ padded "Sentiment" cell2) ∧
    Forall2 (λ (r : dict) row,
      ∃ s t cell1 cell2,
        r !! "Sentence" = Some s ∧ r !! "Sentiment" = Some t ∧
        row = cell1 +:+ "  " +:+ cell2 ∧
        padded s cell1 ∧ padded t cell2) [x_positive] rows.
Proof.
  apply (no_truncation [x_positive]).
  - discriminate.
  - repeat constructor; eexists; vm_compute; reflexivity.
Defined.

(** ** [np.argmax] and softmax *)

Section ArgmaxMonotone.
Context {T U : Type} (ltT : T → T → bool) (ltU : U → U → bool).
Variable f : T → U.
Hypothesis f_strict : ∀ a b, ltU (f a) (f b) = ltT a b.

Lemma argmax_from_fmap (xs : list T) (best : T) (best_i i : nat) :
  argmax_from ltU (f best) best_i i (f <$> xs) =
  argmax_from ltT best best_i i xs.
Proof.
  revert best best_i i. induction xs as [|x xs IH]; intros best best_i i.
  - reflexivity.
  - cbn [fmap list_fmap argmax_from]. rewrite f_strict.
    destruct (ltT best x); apply IH.
Qed.

Lemma np_argmax_fmap (xs : list T) :
  np_argmax ltU (f <$> xs) = np_argmax ltT xs.
Proof.
  destruct xs as [|x xs]; [reflexivity|].
  cbn [fmap list_fmap np_argmax]. f_equal. apply argmax_from_fmap.
Qed.
End ArgmaxMonotone.

Lemma Rsum_exp_pos (x : R) (v : list R) : (0 < Rsum (exp <$> (x :: v)))%R.
Proof.
  revert x. induction v as [|y v IH]; intros x.
  - cbn. pose proof (exp_pos x). lra.
  - specialize (IH y). pose proof (exp_pos x).
    change (0 < exp x + Rsum (exp <$> (y :: v)))%R. lra.
Qed.

Lemma Rltb_exp_div (total a b : R) :
  (0 < total)%R → Rltb (exp a / total) (exp b / total) = Rltb a b.
Proof.
  intros Hpos. unfold Rltb.
  destruct (Rlt_dec a b) as [Hab|Hab];
    destruct (Rlt_dec (exp a / total) (exp b / total)) as [He|He];
    try reflexivity; exfalso.
  - apply He. apply Rmult_lt_compat_r.
    + by apply Rinv_0_lt_compat.
    + by apply exp_increasing.
  - apply Hab. apply exp_lt_inv.
    apply (Rmult_lt_reg_r (/ total)); [by apply Rinv_0_lt_compat|exact He].
Qed.

Lemma np_argmax_softmax_row (v : list R) :
  np_argmax Rltb (softmax_row v) = np_argmax Rltb v.
Proof.
  destruct v as [|x v]; [reflexivity|].
  unfold softmax_row. apply (np_argmax_fmap Rltb Rltb).
  intros a b. apply Rltb_exp_div, Rsum_exp_pos.
Qed.

Lemma np_argmax_axis1_softmax (a : list (list R)) :
  np_argmax_axis1 Rltb (softmax_row <$> a) = np_argmax_axis1 Rltb a.
Proof.
  unfold np_argmax_axis1. induction a as [|v a IH]; [reflexivity|].
  cbn [fmap list_fmap mapM]. by rewrite np_argmax_softmax_row, IH.
Qed.

Lemma np_argmax_axis1_ok {T : Type} (ltb : T → T → bool) (rows : list (list T)) :
  Forall (λ row, row ≠ []) rows →
  ∃ indices, np_argmax_axis1 ltb rows = Ok indices.
Proof.
  unfold np_argmax_axis1.
  induction 1 as [|row rows Hrow _ (indices & IH)]; [by exists []|].
  destruct row as [|x row]; [done|].
  eexists. cbn [mapM np_argmax mbind result_bind]. rewrite IH. reflexivity.
Qed.

Lemma np_argmax_two (a b : R) :
  np_argmax Rltb [a; b] = Ok (if Rlt_dec a b then 1 else 0).
Proof. unfold np_argmax, argmax_from, Rltb. by destruct (Rlt_dec a b). Qed.

Section GetSentimentRuns.
Context {elt : Type}.
Variable predict : list string → result (list (list elt)).
Variable softmax : list (list elt) → result (list (list elt)).
Variable argmax : list (list elt) → result (list nat).

Lemma get_sentiment_run text predictions probabilities indices :
  predict [text] = Ok predictions →
  softmax predictions = Ok probabilities →
  argmax probabilities = Ok indices →
  get_sentiment predict softmax argmax text =
  match indices !! 0 with
  | Some sentiment =>
      Ok (if bool_decide (sentiment = 1) then "positive" else "negative")
  | None => Raise IndexError
  end.
Proof.
  intros Hp Hs Ha. unfold get_sentiment. rewrite Hp. cbn [mbind result_bind].
  rewrite Hs. cbn [mbind result_bind]. rewrite Ha. cbn [mbind result_bind].
  unfold index.
  by destruct (indices !! 0).
Qed.

Lemma get_sentiment_raise text e :
  library_raises predict softmax argmax text e →
  get_sentiment predict softmax argmax text = Raise e.
Proof.
  unfold get_sentiment. intros [Hp|p Hp Hs|p q Hp Hs Ha].
  - by rewrite Hp.
  - rewrite Hp. cbn [mbind result_bind]. by rewrite Hs.
  - rewrite Hp. cbn [mbind result_bind]. rewrite Hs.
    cbn [mbind result_bind]. by rewrite Ha.
Qed.
End GetSentimentRuns.

(** ** Claims about [get_sentiment] *)

(** C6: in exact arithmetic the softmax step never changes the chosen
    class: for every row of logits the argmax of its softmax is the argmax
    of the row itself, so [get_sentiment] returns the same result whether or
    not softmax is applied before argmax, for every model and every text. *)
Theorem softmax_argmax_invariance :
  (∀ v : list R, np_argmax Rltb (softmax_row v) = np_argmax Rltb v) ∧
  (∀ (predict : list string → result (list (list R))) (text : string),
     get_sentiment predict tf_nn_softmax_axis1 (np_argmax_axis1 Rltb) text =
     get_sentiment predict no_softmax (np_argmax_axis1 Rltb) text).
Proof.
  split; [exact np_argmax_softmax_row|].
  intros predict text. unfold get_sentiment.
  destruct (predict [text]) as [predictions|e]; [|reflexivity].
  unfold tf_nn_softmax_axis1, no_softmax. cbn [mbind result_bind].
  by rewrite np_argmax_axis1_softmax.
Qed.

(** C1: for every input text, the label returned by [get_sentiment] is
    ["positive"] when the argmax index of row 0 of the softmaxed
    predictions, that is element 0 of what [np.argmax(_, axis=1)] returns
    on them, is 1, and ["negative"] otherwise.  This holds whatever the
    three library calls compute, hence for any tie-breaking rule of
    argmax. *)
Theorem sentiment_label {elt : Type}
    (predict : list string → result (list (list elt)))
    (softmax : list (list elt) → result (list (list elt)))
    (argmax : list (list elt) → result (list nat))
    (text : string) (predictions probabilities : list (list elt))
    (indices : list nat) (sentiment : nat) :
  predict [text] = Ok predictions →
  softmax predictions = Ok probabilities →
  argmax probabilities = Ok indices →
  indices !! 0 = Some sentiment →
  (sentiment = 1 →
   get_sentiment predict softmax argmax text = Ok "positive") ∧
  (sentiment ≠ 1 →
   get_sentiment predict softmax argmax text = Ok "negative").
Proof.
  intros Hp Hs Ha Hi.
  rewrite (get_sentiment_run _ _ _ _ _ _ _ Hp Hs Ha), Hi.
  split; intros H.
  - by rewrite bool_decide_eq_true_2.
  - by rewrite bool_decide_eq_false_2.
Qed.

(** A model whose logits for every text are [0] and [1]. *)
Lemma sentiment_label_witness :
  get_sentiment (λ _, Ok [[0; 1]%R]) tf_nn_softmax_axis1 (np_argmax_axis1 Rltb)
    "i absolutely loved this movie, it was fantastic!" = Ok "positive".
Proof.
  apply (sentiment_label (λ _, Ok [[0; 1]%R]) tf_nn_softmax_axis1
           (np_argmax_axis1 Rltb)
           "i absolutely loved this movie, it was fantastic!"
           [[0; 1]%R] [softmax_row [0; 1]%R] [1] 1).
  - reflexivity.
  - reflexivity.
  - unfold np_argmax_axis1. cbn [mapM].
    rewrite np_argmax_softmax_row, np_argmax_two.
    destruct (Rlt_dec 0 1) as [_|H]; [reflexivity|]. exfalso. apply H. lra.
  - reflexivity.
  - reflexivity.
Defined.

(** The same with [np.argmax] spelled out: the label follows the index of
    the first maximum of row 0. *)
Lemma sentiment_label_row0 {elt : Type} (ltb : elt → elt → bool)
    (predict : list string → result (list (list elt)))
    (softmax : list (list elt) → result (list (list elt)))
    (text : string) (predictions : list (list elt))
    (row0 : list elt) (rows : list (list elt)) (sentiment : nat) :
  predict [text] = Ok predictions →
  softmax predictions = Ok (row0 :: rows) →
  Forall (λ row, row ≠ []) rows →
  np_argmax ltb row0 = Ok sentiment →
  get_sentiment predict softmax (np_argmax_axis1 ltb) text =
  Ok (if bool_decide (sentiment = 1) then "positive" else "negative").
Proof.
  intros Hp Hs Hrows Hrow0.
  destruct (np_argmax_axis1_ok ltb rows Hrows) as (indices & Hindices).
  assert (np_argmax_axis1 ltb (row0 :: rows) = Ok (sentiment :: indices)) as Ha.
  { unfold np_argmax_axis1 in *. cbn [mapM]. rewrite Hrow0.
    cbn [mbind result_bind]. by rewrite Hindices. }
  by rewrite (get_sentiment_run _ _ _ _ _ _ _ Hp Hs Ha).
Qed.

(** With a two-class model the label is decided by the logits alone: it is
    ["positive"] exactly when the second logit is strictly larger, and a tie
    goes to ["negative"], the first maximum being at index 0. *)
Lemma get_sentiment_two_classes
    (predict : list string → result (list (list R))) (text : string) (a b : R) :
  predict [text] = Ok [[a; b]] →
  get_sentiment predict tf_nn_softmax_axis1 (np_argmax_axis1 Rltb) text =
  Ok (if Rlt_dec a b then "positive" else "negative").
Proof.
  intros Hp.
  rewrite (get_sentiment_run predict tf_nn_softmax_axis1 (np_argmax_axis1 Rltb)
             text [[a; b]] [softmax_row [a; b]] [if Rlt_dec a b then 1 else 0]
             Hp eq_refl).
  - cbn [lookup list_lookup]. by destruct (Rlt_dec a b).
  - unfold np_argmax_axis1. cbn [mapM].
    by rewrite np_argmax_softmax_row, np_argmax_two.
Qed.

(** C7: whenever the [predict], softmax or argmax call raises an exception on
    an input, [get_sentiment] ends with that very exception: nothing catches
    or replaces it, and no label is returned. *)
Theorem get_sentiment_propagates {elt : Type}
    (predict : list string → result (list (list elt)))
    (softmax : list (list elt) → result (list (list elt)))
    (argmax : list (list elt) → result (list nat))
    (text : string) (e : exception) :
  library_raises predict softmax argmax text e →
  get_sentiment predict softmax argmax text = Raise e ∧
  ∀ label, get_sentiment predict softmax argmax text ≠ Ok label.
Proof.
  intros Hraises. rewrite (get_sentiment_raise _ _ _ _ _ Hraises).
  split; [reflexivity|discriminate].
Qed.

(** A model that fails on every text. *)
Lemma get_sentiment_propagates_witness :
  get_sentiment (λ _, Raise (LibraryError "predict"))
    tf_nn_softmax_axis1 (np_argmax_axis1 Rltb)
    "the movie was a complete waste of time."
  = Raise (LibraryError "predict") ∧
  ∀ label,
    get_sentiment (λ _, Raise (LibraryError "predict"))
      tf_nn_softmax_axis1 (np_argmax_axis1 Rltb)
      "the movie was a complete waste of time." ≠ Ok label.
Proof.
  apply get_sentiment_propagates. apply predict_raises. reflexivity.
Defined.


(** * Further properties of the notebook's code *)

(** ** [display_results]: missing fields *)

Lemma getitem_None (d : dict) (key : string) :
  d !! key = None → getitem d key = Raise (KeyError key).
Proof. unfold getitem. by intros ->. Qed.

Lemma max_len_missing (key : string) (results : list dict) :
  Exists (λ r : dict, r !! key = None) results →
  max_len key results = Raise (KeyError key).
Proof.
  intros Hmissing. unfold max_len.
  assert (mapM (λ result : dict, len <$> getitem result key) results
          = Raise (KeyError key)) as ->; [|reflexivity].
  induction Hmissing as [r results Hr|r results _ IH].
  - cbn [mapM]. by rewrite (getitem_None _ _ Hr).
  - cbn [mapM]. destruct (r !! key) as [v|] eqn:Hr.
    + rewrite (getitem_Some _ _ _ Hr), IH. reflexivity.
    + by rewrite (getitem_None _ _ Hr).
Qed.

Lemma fields_dec (key : string) (results : list dict) :
  Forall (λ r : dict, is_Some (r !! key)) results ∨
  Exists (λ r : dict, r !! key = None) results.
Proof.
  induction results as [|r results [IH|IH]].
  - left. constructor.
  - destruct (r !! key) as [v|] eqn:Hr.
    + left. constructor; [by exists v|exact IH].
    + right. by left.
  - right. by right.
Qed.

Lemma missing_sentence_raises (results : list dict) :
  Exists (λ r : dict, r !! "Sentence" = None) results →
  emits (display_results results) [] (Raise (KeyError "Sentence")).
Proof.
  intros Hmissing. unfold display_results.
  rewrite (max_len_missing _ _ Hmissing).
  apply emits_bind_raise, emits_lift.
Qed.

Lemma missing_sentiment_raises (results : list dict) :
  Forall (λ r : dict, is_Some (r !! "Sentence")) results →
  Exists (λ r : dict, r !! "Sentiment" = None) results →
  emits (display_results results) [] (Raise (KeyError "Sentiment")).
Proof.
  intros Hall Hmissing.
  destruct (max_len_ok "Sentence" results) as (w1 & Hw1 & _); [|exact Hall|].
  { intros ->. by apply Exists_nil in Hmissing. }
  unfold display_results. rewrite Hw1, (max_len_missing _ _ Hmissing).
  apply (emits_bind _ _ [] w1 []); [apply emits_lift|].
  apply emits_bind_raise, emits_lift.
Qed.

(** X1: when some record has no "Sentence" key, [display_results] raises
    [KeyError] for that key and prints nothing, whatever the other records
    and fields are. *)
Theorem display_results_missing_sentence (results : list dict) :
  Exists (λ r : dict, r !! "Sentence" = None) results →
  emits (display_results results) [] (Raise (KeyError "Sentence")).
Proof. apply missing_sentence_raises. Qed.

Lemma display_results_missing_sentence_witness :
  emits (display_results [x_positive; {[ "Sentiment" := "negative" ]}]) []
    (Raise (KeyError "Sentence")).
Proof.
  apply display_results_missing_sentence.
  right. left. vm_compute. reflexivity.
Defined.

(** X2: when every record has a "Sentence" but some record has no
    "Sentiment" key, [display_results] raises [KeyError] for "Sentiment"
    and prints nothing: the header is not printed before the second column
    has been measured. *)
Theorem display_results_missing_sentiment (results : list dict) :
  Forall (λ r : dict, is_Some (r !! "Sentence")) results →
  Exists (λ r : dict, r !! "Sentiment" = None) results →
  emits (display_results results) [] (Raise (KeyError "Sentiment")).
Proof. apply missing_sentiment_raises. Qed.

Lemma display_results_missing_sentiment_witness :
  emits (display_results [x_positive; {[ "Sentence" := "y" ]}]) []
    (Raise (KeyError "Sentiment")).
Proof.
  apply display_results_missing_sentiment.
  - repeat constructor; eexists; vm_compute; reflexivity.
  - right. left. vm_compute. reflexivity.
Defined.

(** X3: on every list of records whose values are strings,
    [display_results] either raises before its first [print] call, or every
    record has both fields and it ends normally after exactly two [print]
    calls more than there are records (the header, the rule, and one per
    record).  It never stops between two [print] calls. *)
Theorem display_results_all_or_nothing (results : list dict) :
  (∃ e, emits (display_results results) [] (Raise e)) ∨
  (0 < length results ∧ Forall has_fields results ∧
   ∃ lines, emits (display_results results) lines (Ok tt) ∧
            length lines = length results + 2).
Proof.
  destruct results as [|r results].
  { left. exists ValueError. intros out. cbn. by rewrite app_nil_r. }
  destruct (fields_dec "Sentence" (r :: results)) as [H1|H1].
  2: { left. eexists. by apply missing_sentence_raises. }
  destruct (fields_dec "Sentiment" (r :: results)) as [H2|H2].
  2: { left. eexists. by apply missing_sentiment_raises. }
  assert (Forall has_fields (r :: results)) as Hall.
  { apply Forall_forall. intros r' Hr'. split.
    - by apply (proj1 (Forall_forall _ _) H1).
    - by apply (proj1 (Forall_forall _ _) H2). }
  right. split; [cbn; lia|]. split; [exact Hall|].
  destruct (display_results_run (r :: results) ltac:(done) Hall)
    as (w1 & w2 & rows & _ & _ & Hrows & Hrun).
  eexists. split; [exact Hrun|].
  cbn [length]. rewrite <- (Forall2_length _ _ _ Hrows). cbn [length]. lia.
Qed.

(** ** [display_results]: the shape of the table *)

Lemma len_two_columns (a b : string) (w1 w2 : nat) :
  len (two_columns a b w1 w2) = Nat.max (len a) w1 + 2 + Nat.max (len b) w2.
Proof.
  unfold two_columns. rewrite !len_app, !len_format_left.
  cbn [len String.length]. lia.
Qed.

(** X4: in the table of a non-empty list of records all data rows have the
    same length, the two column widths plus the two-space gap; the rule is
    exactly two characters longer than a row; and the header has length
    max(8, w1) + 2 + max(9, w2), so it is never shorter than a row. *)
Theorem table_line_lengths (results : list dict) :
  results ≠ [] → Forall has_fields results →
  ∃ w1 w2 header separator rows,
    is_max_length "Sentence" results w1 ∧
    is_max_length "Sentiment" results w2 ∧
    emits (display_results results) (header :: separator :: rows) (Ok tt) ∧
    Forall (λ row, len row = w1 + 2 + w2) rows ∧
    len separator = (w1 + 2 + w2) + 2 ∧
    len header = Nat.max 8 w1 + 2 + Nat.max 9 w2 ∧
    w1 + 2 + w2 ≤ len header.
Proof.
  intros Hne Hall.
  destruct (display_results_run results Hne Hall)
    as (w1 & w2 & rows & Hw1 & Hw2 & Hrows & Hrun).
  exists w1, w2. eexists _, _, rows.
  split; [exact Hw1|]. split; [exact Hw2|]. split; [exact Hrun|].
  split; [|split; [|split]].
  - apply Forall_forall. intros row Hrow.
    apply list_elem_of_lookup in Hrow as [i Hi].
    destruct (Forall2_lookup_r _ _ _ _ _ Hrows Hi)
      as (r & Hr & s & t & Hs & Ht & ->).
    apply list_elem_of_lookup_2 in Hr.
    pose proof (proj2 Hw1 r s Hr Hs). pose proof (proj2 Hw2 r t Hr Ht).
    rewrite len_two_columns. lia.
  - rewrite len_str_mul. cbn [len String.length]. lia.
  - rewrite len_two_columns. reflexivity.
  - rewrite len_two_columns. cbn [len String.length]. lia.
Qed.

Lemma table_line_lengths_witness :
  ∃ w1 w2 header separator rows,
    is_max_length "Sentence" demo_results w1 ∧
    is_max_length "Sentiment" demo_results w2 ∧
    emits (display_results demo_results)
      (header :: separator :: rows) (Ok tt) ∧
    Forall (λ row, len row = w1 + 2 + w2) rows ∧
    len separator = (w1 + 2 + w2) + 2 ∧
    len header = Nat.max 8 w1 + 2 + Nat.max 9 w2 ∧
    w1 + 2 + w2 ≤ len header.
Proof.
  apply (table_line_lengths demo_results).
  - discriminate.
  - repeat constructor; eexists; vm_compute; reflexivity.
Defined.

(** ** [display_results]: what it looks at *)

Lemma getitem_same (r r' : dict) (key : string) :
  r !! key = r' !! key → getitem r key = getitem r' key.
Proof. unfold getitem. by intros ->. Qed.

Lemma max_len_same (key : string) (rs rs' : list dict) :
  Forall2 (λ r r' : dict, r !! key = r' !! key) rs rs' →
  max_len key rs = max_len key rs'.
Proof.
  intros Hsame. unfold max_len. f_equal.
  induction Hsame as [|r r' rs rs' Hr _ IH]; [reflexivity|].
  cbn [mapM]. by rewrite (getitem_same _ _ _ Hr), IH.
Qed.

Lemma run_bind_congr {A B : Type} (m : io A) (f g : A → io B) (out : console) :
  (∀ a out', run (f a) out' = run (g a) out') →
  run (m ≫= f) out = run (m ≫= g) out.
Proof.
  intros Hfg. rewrite (run_bind m f), (run_bind m g).
  destruct (run m out) as [out' [a|e]]; [apply Hfg|reflexivity].
Qed.

Lemma for_each_rows_same (w1 w2 : nat) (rs rs' : list dict) (out : console) :
  Forall2 same_fields rs rs' →
  run (for_each rs (λ result,
         sentence ← lift (getitem result "Sentence");
         sentiment ← lift (getitem result "Sentiment");
         print (two_columns sentence sentiment w1 w2))) out =
  run (for_each rs' (λ result,
         sentence ← lift (getitem result "Sentence");
         sentiment ← lift (getitem result "Sentiment");
         print (two_columns sentence sentiment w1 w2))) out.
Proof.
  intros Hsame. revert out.
  induction Hsame as [|r r' rs rs' [Hs Ht] _ IH]; intros out; [reflexivity|].
  cbn [for_each].
  rewrite (getitem_same _ _ _ Hs), (getitem_same _ _ _ Ht).
  apply run_bind_congr. intros _ out'. apply IH.
Qed.

(** X5: [display_results] looks at the "Sentence" and "Sentiment" entries
    of the records and at nothing else: two lists whose records agree on
    these two keys, position by position, give the same output and the same
    outcome, whatever other keys the records carry. *)
Theorem display_results_same_fields (rs rs' : list dict) (out : console) :
  Forall2 same_fields rs rs' →
  run (display_results rs) out = run (display_results rs') out.
Proof.
  intros Hsame. unfold display_results.
  rewrite (max_len_same "Sentence" rs rs'), (max_len_same "Sentiment" rs rs').
  2, 3: eapply Forall2_impl; [exact Hsame|]; by intros r r' [? ?].
  apply run_bind_congr. intros w1 out1.
  apply run_bind_congr. intros w2 out2.
  apply run_bind_congr. intros _ out3.
  apply run_bind_congr. intros _ out4.
  by apply for_each_rows_same.
Qed.

Lemma display_results_same_fields_witness :
  run (display_results [<["Score" := "0.98"]> x_positive]) [] =
  run (display_results [x_positive]) [].
Proof.
  apply display_results_same_fields.
  repeat constructor; vm_compute; reflexivity.
Defined.

(** ** [display_results]: the order of the records *)

Lemma is_max_length_le (key : string) (rs rs' : list dict) (w w' : nat) :
  is_max_length key rs w → is_max_length key rs' w' → rs ≡ₚ rs' → w ≤ w'.
Proof.
  intros [(r & s & Hr & Hs & <-) _] [_ Hle] Hperm.
  apply (Hle r s); [|exact Hs]. by rewrite <- Hperm.
Qed.

Lemma rows_fmap (w1 w2 : nat) (rs : list dict) (rows : list string) :
  Forall2 (row_of w1 w2) rs rows → rows = row_text w1 w2 <$> rs.
Proof.
  induction 1 as [|r row rs rows (s & t & Hs & Ht & ->) _ IH]; [reflexivity|].
  cbn [fmap list_fmap]. f_equal; [|exact IH].
  unfold row_text. by rewrite Hs, Ht.
Qed.

(** X6: reordering the records reorders the data rows and changes nothing
    else: for a non-empty list of records with both fields and any
    permutation of it, [display_results] prints the same header and the
    same rule, and the data rows of one table are a permutation of those of
    the other. *)
Theorem display_results_permutation (rs rs' : list dict) :
  rs ≠ [] → Forall has_fields rs → rs ≡ₚ rs' →
  ∃ header separator rows rows',
    emits (display_results rs) (header :: separator :: rows) (Ok tt) ∧
    emits (display_results rs') (header :: separator :: rows') (Ok tt) ∧
    rows ≡ₚ rows'.
Proof.
  intros Hne Hall Hperm.
  assert (rs' ≠ []) as Hne'.
  { intros ->. by apply Permutation_nil_r in Hperm. }
  assert (Forall has_fields rs') as Hall' by (by rewrite <- Hperm).
  destruct (display_results_run rs Hne Hall)
    as (w1 & w2 & rows & Hw1 & Hw2 & Hrows & Hrun).
  destruct (display_results_run rs' Hne' Hall')
    as (w1' & w2' & rows' & Hw1' & Hw2' & Hrows' & Hrun').
  assert (w1' = w1) as ->.
  { pose proof (is_max_length_le _ _ _ _ _ Hw1 Hw1' Hperm).
    pose proof (is_max_length_le _ _ _ _ _ Hw1' Hw1 (symmetry Hperm)). lia. }
  assert (w2' = w2) as ->.
  { pose proof (is_max_length_le _ _ _ _ _ Hw2 Hw2' Hperm).
    pose proof (is_max_length_le _ _ _ _ _ Hw2' Hw2 (symmetry Hperm)). lia. }
  eexists _, _, rows, rows'.
  split; [exact Hrun|]. split; [exact Hrun'|].
  rewrite (rows_fmap _ _ _ _ Hrows), (rows_fmap _ _ _ _ Hrows').
  by apply fmap_Permutation.
Qed.

Lemma display_results_permutation_witness :
  ∃ header separator rows rows',
    emits (display_results demo_results)
      (header :: separator :: rows) (Ok tt) ∧
    emits (display_results (reverse demo_results))
      (header :: separator :: rows') (Ok tt) ∧
    rows ≡ₚ rows'.
Proof.
  apply (display_results_permutation demo_results (reverse demo_results)).
  - discriminate.
  - repeat constructor; eexists; vm_compute; reflexivity.
  - apply perm_swap.
Defined.

(** ** [get_sentiment]: every outcome *)

Section GetSentimentOutcomes.
Context {elt : Type}.
Variable predict : list string → result (list (list elt)).
Variable softmax : list (list elt) → result (list (list elt)).
Variable argmax : list (list elt) → result (list nat).

Lemma get_sentiment_cases (text : string) :
  get_sentiment predict softmax argmax text = Ok "positive" ∨
  get_sentiment predict softmax argmax text = Ok "negative" ∨
  (∃ e, library_raises predict softmax argmax text e ∧
        get_sentiment predict softmax argmax text = Raise e) ∨
  (∃ predictions probabilities,
     predict [text] = Ok predictions ∧
     softmax predictions = Ok probabilities ∧
     argmax probabilities = Ok [] ∧
     get_sentiment predict softmax argmax text = Raise IndexError).
Proof.
  destruct (predict [text]) as [predictions|e] eqn:Hp.
  2: { right; right; left. exists e.
       assert (library_raises predict softmax argmax text e) as Hr
         by (by apply predict_raises).
       split; [exact Hr|by apply get_sentiment_raise]. }
  destruct (softmax predictions) as [probabilities|e] eqn:Hs.
  2: { right; right; left. exists e.
       assert (library_raises predict softmax argmax text e) as Hr
         by (by eapply softmax_raises).
       split; [exact Hr|by apply get_sentiment_raise]. }
  destruct (argmax probabilities) as [indices|e] eqn:Ha.
  2: { right; right; left. exists e.
       assert (library_raises predict softmax argmax text e) as Hr
         by (by eapply argmax_raises).
       split; [exact Hr|by apply get_sentiment_raise]. }
  rewrite (get_sentiment_run _ _ _ _ _ _ _ Hp Hs Ha).
  destruct indices as [|sentiment indices].
  - right; right; right. by exists predictions, probabilities.
  - cbn [lookup list_lookup]. destruct (bool_decide (sentiment = 1)); auto.
Qed.

Lemma get_sentiment_label (text label : string) :
  get_sentiment predict softmax argmax text = Ok label →
  label = "positive" ∨ label = "negative".
Proof.
  intros Hl.
  destruct (get_sentiment_cases text)
    as [H|[H|[(e & _ & H)|(p & q & _ & _ & _ & H)]]];
    rewrite H in Hl; try discriminate; injection Hl as <-; auto.
Qed.
End GetSentimentOutcomes.

(** X7: whatever the library calls do, [get_sentiment] ends in one of four
    ways: it returns ["positive"], it returns ["negative"], it raises the
    exception a library call raised, or, when argmax returns an empty index
    array, it raises [IndexError] from its own [[0]].  No other label and no
    other exception of its own can come out. *)
Theorem get_sentiment_outcomes {elt : Type}
    (predict : list string → result (list (list elt)))
    (softmax : list (list elt) → result (list (list elt)))
    (argmax : list (list elt) → result (list nat)) (text : string) :
  get_sentiment predict softmax argmax text = Ok "positive" ∨
  get_sentiment predict softmax argmax text = Ok "negative" ∨
  (∃ e, library_raises predict softmax argmax text e ∧
        get_sentiment predict softmax argmax text = Raise e) ∨
  (∃ predictions probabilities,
     predict [text] = Ok predictions ∧
     softmax predictions = Ok probabilities ∧
     argmax probabilities = Ok [] ∧
     get_sentiment predict softmax argmax text = Raise IndexError).
Proof. apply get_sentiment_cases. Qed.

(** ** [get_sentiment]: which logits give which label *)

Section ArgmaxIndex.
Context {T : Type} (ltb : T → T → bool).

Lemma argmax_from_range (xs : list T) (best : T) (best_i i : nat) :
  argmax_from ltb best best_i i xs = best_i ∨
  i ≤ argmax_from ltb best best_i i xs.
Proof.
  revert best best_i i. induction xs as [|x xs IH]; intros best best_i i.
  - by left.
  - cbn [argmax_from]. destruct (ltb best x).
    + right. destruct (IH x i (S i)) as [->|H]; lia.
    + destruct (IH best best_i (S i)) as [->|H]; [by left|right; lia].
Qed.

Lemma argmax_from_keeps (xs : list T) (best : T) (best_i i : nat) :
  best_i < i →
  argmax_from ltb best best_i i xs = best_i ↔
  Forall (λ x, ltb best x = false) xs.
Proof.
  revert i. induction xs as [|x xs IH]; intros i Hlt.
  - split; [constructor|reflexivity].
  - cbn [argmax_from]. destruct (ltb best x) eqn:Hx.
    + split.
      * intros Heq. destruct (argmax_from_range xs x i (S i)) as [H|H]; lia.
      * intros Hall. apply Forall_cons in Hall as [Hx' _]. congruence.
    + rewrite (IH (S i)) by lia. split.
      * intros Hall. by constructor.
      * intros Hall. by apply Forall_cons in Hall as [_ ?].
Qed.

Lemma np_argmax_is_1 (a b : T) (rest : list T) :
  np_argmax ltb (a :: b :: rest) = Ok 1 ↔
  ltb a b = true ∧ Forall (λ x, ltb b x = false) rest.
Proof.
  cbn [np_argmax argmax_from]. destruct (ltb a b) eqn:Hab.
  - rewrite <- (argmax_from_keeps rest b 1 2) by lia. split.
    + intros [= H]. done.
    + intros [_ ->]. reflexivity.
  - split; [|by intros [? _]].
    intros [= H]. destruct (argmax_from_range rest a 0 2) as [H'|H']; lia.
Qed.
End ArgmaxIndex.

Lemma Rltb_true (a b : R) : Rltb a b = true ↔ (a < b)%R.
Proof. unfold Rltb. destruct (Rlt_dec a b); split; done. Qed.

Lemma Rltb_false (a b : R) : Rltb a b = false ↔ (b <= a)%R.
Proof. unfold Rltb. destruct (Rlt_dec a b); split; try done; lra. Qed.

Lemma get_sentiment_one_row
    (predict : list string → result (list (list R))) (text : string)
    (row : list R) (i : nat) :
  predict [text] = Ok [row] →
  np_argmax Rltb row = Ok i →
  get_sentiment predict tf_nn_softmax_axis1 (np_argmax_axis1 Rltb) text =
  Ok (if bool_decide (i = 1) then "positive" else "negative").
Proof.
  intros Hp Hi.
  rewrite (get_sentiment_run predict tf_nn_softmax_axis1 (np_argmax_axis1 Rltb)
             text [row] [softmax_row row] [i] Hp eq_refl); [reflexivity|].
  unfold np_argmax_axis1. cbn [mapM]. by rewrite np_argmax_softmax_row, Hi.
Qed.

(** X8: with softmax and argmax as TensorFlow and NumPy compute them in
    exact arithmetic, and a model that returns one row of at least two
    logits, [get_sentiment] answers ["positive"] exactly when the logit of
    class 1 is strictly larger than that of class 0 and no later class
    exceeds it, and ["negative"] in every other case; in particular a tie
    between classes 0 and 1 is ["negative"], and so is any win of a class
    2, 3, ... *)
Theorem positive_iff_class_1_wins
    (predict : list string → result (list (list R))) (text : string)
    (a b : R) (rest : list R) :
  predict [text] = Ok [a :: b :: rest] →
  (get_sentiment predict tf_nn_softmax_axis1 (np_argmax_axis1 Rltb) text
   = Ok "positive" ↔
   (a < b)%R ∧ Forall (λ x, (x <= b)%R) rest) ∧
  (get_sentiment predict tf_nn_softmax_axis1 (np_argmax_axis1 Rltb) text
   = Ok "negative" ↔
   ¬ ((a < b)%R ∧ Forall (λ x, (x <= b)%R) rest)).
Proof.
  intros Hp.
  destruct (np_argmax Rltb (a :: b :: rest)) as [i|e] eqn:Hi; [|discriminate].
  rewrite (get_sentiment_one_row predict text _ i Hp Hi).
  assert (i = 1 ↔ (a < b)%R ∧ Forall (λ x, (x <= b)%R) rest) as Hiff.
  { rewrite <- Rltb_true.
    assert (Forall (λ x, (x <= b)%R) rest ↔
            Forall (λ x, Rltb b x = false) rest) as ->.
    { split; intros H; (eapply Forall_impl; [exact H|]);
        intros x; apply Rltb_false. }
    rewrite <- np_argmax_is_1, Hi. split; [by intros ->|by intros [= ->]]. }
  rewrite <- Hiff. destruct (bool_decide_reflect (i = 1)) as [Heq|Hne].
  - split; split; done.
  - split; split; done.
Qed.

Lemma positive_iff_class_1_wins_witness :
  (get_sentiment (λ _, Ok [[1; 1; 0; 0]%R])
     tf_nn_softmax_axis1 (np_argmax_axis1 Rltb) "I forgot my homework."
   = Ok "positive" ↔
   (1 < 1)%R ∧ Forall (λ x, (x <= 1)%R) [0; 0]%R) ∧
  (get_sentiment (λ _, Ok [[1; 1; 0; 0]%R])
     tf_nn_softmax_axis1 (np_argmax_axis1 Rltb) "I forgot my homework."
   = Ok "negative" ↔
   ¬ ((1 < 1)%R ∧ Forall (λ x, (x <= 1)%R) [0; 0]%R)).
Proof.
  apply (positive_iff_class_1_wins (λ _, Ok [[1; 1; 0; 0]%R])).
  reflexivity.
Defined.

(** ** The script: from sentences to the table *)

Lemma new_result_sentence (s l : string) : new_result s l !! "Sentence" = Some s.
Proof.
  unfold new_result. rewrite lookup_insert_ne by done. apply lookup_insert_eq.
Qed.

Lemma new_result_sentiment (s l : string) :
  new_result s l !! "Sentiment" = Some l.
Proof. unfold new_result. apply lookup_insert_eq. Qed.

Lemma Forall2_compose {A B C : Type} (P : A → B → Prop) (Q : B → C → Prop)
    (R : A → C → Prop) (xs : list A) (ys : list B) (zs : list C) :
  (∀ x y z, P x y → Q y z → R x z) →
  Forall2 P xs ys → Forall2 Q ys zs → Forall2 R xs zs.
Proof.
  intros HPQ HP. revert zs.
  induction HP as [|x y xs ys Hxy _ IH]; intros zs HQ.
  - apply Forall2_nil_inv_l in HQ as ->. constructor.
  - apply Forall2_cons_inv_l in HQ as (z & zs' & Hyz & HQ & ->).
    constructor; [by eapply HPQ|by apply IH].
Qed.

Section ScriptRuns.
Context {elt : Type}.
Variable predict : list string → result (list (list elt)).
Variable softmax : list (list elt) → result (list (list elt)).
Variable argmax : list (list elt) → result (list nat).

Let classified (s : string) : Prop :=
  ∃ l, get_sentiment predict softmax argmax s = Ok l.

Let record_of (s : string) (r : dict) : Prop :=
  ∃ l, get_sentiment predict softmax argmax s = Ok l ∧ r = new_result s l.

Lemma append_results_spec (todo : list string) (results : list dict) :
  Forall classified todo →
  ∃ new,
    append_results predict softmax argmax todo results = Ok (results ++ new) ∧
    Forall2 record_of todo new.
Proof.
  intros Hall. revert results.
  induction Hall as [|s todo [l Hl] _ IH]; intros results.
  - exists []. split; [by rewrite app_nil_r|constructor].
  - destruct (IH (results ++ [new_result s l])) as (new & Hnew & Hrec).
    exists (new_result s l :: new). split.
    + cbn [append_results]. rewrite Hl. cbn [mbind result_bind].
      rewrite Hnew. by rewrite <- app_assoc.
    + constructor; [by exists l|exact Hrec].
Qed.

Lemma append_results_raise (pre : list string) (s : string)
    (post : list string) (e : exception) (results : list dict) :
  Forall classified pre →
  get_sentiment predict softmax argmax s = Raise e →
  append_results predict softmax argmax (pre ++ s :: post) results = Raise e.
Proof.
  intros Hpre Hs. revert results.
  induction Hpre as [|s' pre [l Hl] _ IH]; intros results.
  - cbn [app append_results]. by rewrite Hs.
  - cbn [app append_results]. rewrite Hl. cbn [mbind result_bind]. apply IH.
Qed.

Lemma first_failure (todo : list string) :
  Forall classified todo ∨
  ∃ pre s post e,
    todo = pre ++ s :: post ∧ Forall classified pre ∧
    get_sentiment predict softmax argmax s = Raise e.
Proof.
  induction todo as [|s todo IH]; [left; constructor|].
  destruct (get_sentiment predict softmax argmax s) as [l|e] eqn:Hs.
  - destruct IH as [IH|(pre & s' & post & e & -> & Hpre & Hs')].
    + left. constructor; [by exists l|exact IH].
    + right. exists (s :: pre), s', post, e.
      split; [reflexivity|]. split; [|exact Hs'].
      constructor; [by exists l|exact Hpre].
  - right. exists [], s, todo, e. split; [reflexivity|]. split; [constructor|exact Hs].
Qed.

Lemma script_raise (pre : list string) (s : string) (post : list string)
    (e : exception) :
  Forall classified pre →
  get_sentiment predict softmax argmax s = Raise e →
  emits (script predict softmax argmax (pre ++ s :: post)) [] (Raise e).
Proof.
  intros Hpre Hs. unfold script.
  rewrite (append_results_raise pre s post e [] Hpre Hs).
  apply emits_bind_raise, emits_lift.
Qed.

Lemma record_of_fields (todo : list string) (new : list dict) :
  Forall2 record_of todo new → Forall has_fields new.
Proof.
  induction 1 as [|s r todo new (l & _ & ->) _ IH]; constructor; [|exact IH].
  split; [exists s; apply new_result_sentence|exists l; apply new_result_sentiment].
Qed.

Lemma script_table (todo : list string) :
  todo ≠ [] → Forall classified todo →
  ∃ w1 rows,
    w1 ∈ len <$> todo ∧
    Forall (λ s, len s ≤ w1) todo ∧
    emits (script predict softmax argmax todo)
      ((format_left "Sentence" w1 +:+ "  Sentiment")
       :: str_mul "-" (w1 + 12) :: rows) (Ok tt) ∧
    Forall2 (λ s row,
      ∃ l, get_sentiment predict softmax argmax s = Ok l ∧
           row = format_left s w1 +:+ "  " +:+ l) todo rows.
Proof.
  intros Hne Hall.
  destruct (append_results_spec todo [] Hall) as (new & Hnew & Hrec).
  cbn [app] in Hnew.
  assert (new ≠ []) as Hne'.
  { intros ->. apply Forall2_nil_inv_r in Hrec. done. }
  destruct (display_results_run new Hne' (record_of_fields _ _ Hrec))
    as (w1 & w2 & rows & Hw1 & Hw2 & Hrows & Hrun).
  assert (w2 = 8) as ->.
  { destruct Hw2 as [(r & t & Hr & Ht & <-) _].
    apply list_elem_of_lookup in Hr as [i Hi].
    destruct (Forall2_lookup_r _ _ _ _ _ Hrec Hi) as (s & _ & l & Hl & ->).
    rewrite new_result_sentiment in Ht. injection Ht as <-.
    by destruct (get_sentiment_label _ _ _ _ _ Hl) as [->| ->]. }
  exists w1, rows. split; [|split; [|split]].
  - destruct Hw1 as [(r & s' & Hr & Hs' & <-) _].
    apply list_elem_of_lookup in Hr as [i Hi].
    destruct (Forall2_lookup_r _ _ _ _ _ Hrec Hi) as (s & Hs & l & _ & ->).
    rewrite new_result_sentence in Hs'. injection Hs' as <-.
    apply list_elem_of_fmap. exists s. split; [reflexivity|].
    by apply list_elem_of_lookup_2 in Hs.
  - apply Forall_forall. intros s Hs.
    apply list_elem_of_lookup in Hs as [i Hi].
    destruct (Forall2_lookup_l _ _ _ _ _ Hrec Hi) as (r & Hr & l & _ & ->).
    apply (proj2 Hw1 (new_result s l) s).
    + by apply list_elem_of_lookup_2 in Hr.
    + apply new_result_sentence.
  - unfold script. rewrite Hnew.
    apply (emits_bind _ _ [] new); [apply emits_lift|].
    replace (w1 + 12) with (w1 + 8 + 4) by lia. exact Hrun.
  - eapply Forall2_compose; [|exact Hrec|exact Hrows].
    intros s r row (l & Hl & ->) (s' & t & Hs' & Ht & ->).
    rewrite new_result_sentence in Hs'. injection Hs' as <-.
    rewrite new_result_sentiment in Ht. injection Ht as <-.
    exists l. split; [exact Hl|].
    by destruct (get_sentiment_label _ _ _ _ _ Hl) as [->| ->].
Qed.
End ScriptRuns.

(** X9: when [get_sentiment] succeeds on every sentence, the loop of the
    script returns one record per sentence, in the order of the sentences;
    each record holds its sentence under "Sentence" and the label
    [get_sentiment] gave it, ["positive"] or ["negative"], under
    "Sentiment". *)
Theorem append_results_records {elt : Type}
    (predict : list string → result (list (list elt)))
    (softmax : list (list elt) → result (list (list elt)))
    (argmax : list (list elt) → result (list nat)) (todo : list string) :
  Forall (λ s, ∃ l, get_sentiment predict softmax argmax s = Ok l) todo →
  ∃ results,
    append_results predict softmax argmax todo [] = Ok results ∧
    length results = length todo ∧
    Forall2 (λ s (r : dict),
      r !! "Sentence" = Some s ∧
      ∃ l, get_sentiment predict softmax argmax s = Ok l ∧
           r !! "Sentiment" = Some l ∧
           (l = "positive" ∨ l = "negative")) todo results.
Proof.
  intros Hall.
  destruct (append_results_spec predict softmax argmax todo [] Hall)
    as (results & Hresults & Hrec).
  exists results. split; [exact Hresults|].
  split; [symmetry; by eapply Forall2_length|].
  eapply Forall2_impl; [exact Hrec|].
  intros s r (l & Hl & ->). split; [apply new_result_sentence|].
  exists l. split; [exact Hl|]. split; [apply new_result_sentiment|].
  by eapply get_sentiment_label.
Qed.

Lemma append_results_records_witness :
  ∃ results,
    append_results always_positive tf_nn_softmax_axis1 (np_argmax_axis1 Rltb)
      sentences [] = Ok results ∧
    length results = length sentences ∧
    Forall2 (λ s (r : dict),
      r !! "Sentence" = Some s ∧
      ∃ l, get_sentiment always_positive tf_nn_softmax_axis1
             (np_argmax_axis1 Rltb) s = Ok l ∧
           r !! "Sentiment" = Some l ∧
           (l = "positive" ∨ l = "negative")) sentences results.
Proof.
  apply append_results_records.
  repeat constructor; eexists;
    by apply (get_sentiment_two_classes always_positive _ 0 1).
Defined.

(** X10: the script stops at the first sentence on which [get_sentiment]
    raises: it ends with that exception, the sentences after it are not
    classified, [display_results] is not reached and no line of the table is
    printed. *)
Theorem script_stops_at_first_failure {elt : Type}
    (predict : list string → result (list (list elt)))
    (softmax : list (list elt) → result (list (list elt)))
    (argmax : list (list elt) → result (list nat))
    (pre : list string) (s : string) (post : list string) (e : exception) :
  Forall (λ s', ∃ l, get_sentiment predict softmax argmax s' = Ok l) pre →
  get_sentiment predict softmax argmax s = Raise e →
  append_results predict softmax argmax (pre ++ s :: post) [] = Raise e ∧
  emits (script predict softmax argmax (pre ++ s :: post)) [] (Raise e).
Proof.
  intros Hpre Hs. split.
  - by apply append_results_raise.
  - by apply script_raise.
Qed.

Lemma script_stops_at_first_failure_witness :
  append_results fails_on_second tf_nn_softmax_axis1 (np_argmax_axis1 Rltb)
    sentences [] = Raise (LibraryError "predict") ∧
  emits (script fails_on_second tf_nn_softmax_axis1 (np_argmax_axis1 Rltb)
           sentences) [] (Raise (LibraryError "predict")).
Proof.
  apply (script_stops_at_first_failure fails_on_second tf_nn_softmax_axis1
           (np_argmax_axis1 Rltb)
           ["the movie was a complete waste of time."]
           "the plot was predictable and boring."
           ["i absolutely loved this movie, it was fantastic!";
            "an excellent movie that i would highly recommend."]).
  - repeat constructor. eexists.
    by apply (get_sentiment_two_classes fails_on_second _ 0 1).
  - reflexivity.
Defined.




(** ** Fetching [notebook_utils.py] *)

Section FetchUtilsRuns.
Variable requests_get : string → result string.

Lemma fetch_cases (w : world) :
  (is_Some (files w !! notebook_utils_py) ∧
   fetch_notebook_utils requests_get w = (w, Ok tt)) ∨
  (files w !! notebook_utils_py = None ∧
   ∃ e, (requests_get notebook_utils_url = Raise e ∨ writable w = false) ∧
        fetch_notebook_utils requests_get w =
        (World (files w) (writable w) (requested w ++ [notebook_utils_url])
           (encodable w), Raise e)) ∨
  (files w !! notebook_utils_py = None ∧
   ∃ text e, requests_get notebook_utils_url = Ok text ∧
             writable w = true ∧ encodable w text = false ∧
             fetch_notebook_utils requests_get w =
             (World (<[notebook_utils_py := ""]> (files w)) (writable w)
                (requested w ++ [notebook_utils_url]) (encodable w),
              Raise e)) ∨
  (files w !! notebook_utils_py = None ∧
   ∃ text, requests_get notebook_utils_url = Ok text ∧
           fetch_notebook_utils requests_get w =
           (World (<[notebook_utils_py := text]>
                     (<[notebook_utils_py := ""]> (files w))) (writable w)
              (requested w ++ [notebook_utils_url]) (encodable w), Ok tt)).
Proof.
  unfold fetch_notebook_utils.
  destruct (bool_decide_reflect (is_Some (files w !! notebook_utils_py)))
    as [Hsome|Hnone].
  { left. by split. }
  right. apply eq_None_not_Some in Hnone.
  destruct (requests_get notebook_utils_url) as [text|e].
  2: { left. split; [exact Hnone|]. exists e. split; [by left|reflexivity]. }
  unfold open_w_write, open_w. cbn [writable files requested encodable].
  destruct (writable w) eqn:Hw.
  - unfold write. cbn [writable files requested encodable].
    destruct (encodable w text) eqn:Henc.
    + right; right. split; [exact Hnone|]. by exists text.
    + right; left. split; [exact Hnone|]. by eexists text, _.
  - left. split; [exact Hnone|]. eexists. split; [by right|].
    by destruct w.
Qed.
End FetchUtilsRuns.








